(** * mean-crud-app backend (src/backend/index.js)

    A shallow embedding of the Express 5 / Mongoose 8 task service:

      app.use(cors()); app.use(express.json());
      mongoose.connect('mongodb://mongo:27017/mean-crud', ...);
      const TaskSchema = new mongoose.Schema({ title: String, description: String });
      app.get('/', ...)            res.send('Backend is running!')
      app.get('/tasks', ...)       res.json(await Task.find())
      app.post('/tasks', ...)      const task = new Task(req.body); await task.save(); res.json(task)

    The libraries the handlers call are modelled by their documented
    behaviour: the cors() preflight answer, express.json() body parsing,
    Express 5 forwarding a rejected handler promise to the default error
    handler (HTTP 500), Mongoose's strict schema (keys that are not paths are
    dropped), its String / ObjectId / Number casts, the version key [__v]
    set to 0 on insert, Mongoose's buffering of storage calls while the
    first connection is pending, the driver's ObjectId for a null [_id],
    and MongoDB's unique index on [_id]. *)

From Stdlib Require Import String Ascii List ZArith Bool Lia.
Import ListNotations.
Open Scope string_scope.
Set Warnings "-register-all".

(** ** JSON values, as JSON.parse (inside express.json()) produces them *)

Inductive JValue : Type :=
| JNull
| JBool (b : bool)
| JNum (repr : string)   (** a number, carried as its Number.prototype.toString text *)
| JStr (s : string)
| JArr (xs : list JValue)
| JObj (kvs : list (string * JValue)).  (** keys distinct, as JSON.parse leaves them *)

Fixpoint assoc (k : string) (kvs : list (string * JValue)) : option JValue :=
  match kvs with
  | [] => None
  | (k', v) :: rest => if String.eqb k k' then Some v else assoc k rest
  end.

(** JavaScript's ToString on a JSON value ([value.toString()]); arrays are
    joined with "," and render null elements as the empty string. *)
Fixpoint js_to_string (v : JValue) : string :=
  match v with
  | JNull => "null"
  | JBool b => if b then "true" else "false"
  | JNum r => r
  | JStr s => s
  | JObj _ => "[object Object]"
  | JArr xs =>
      let fix elems (xs : list JValue) : list string :=
        match xs with
        | [] => []
        | JNull :: rest => "" :: elems rest
        | x :: rest => js_to_string x :: elems rest
        end in
      String.concat "," (elems xs)
  end.

(** JavaScript truthiness of a JSON value. *)
Definition truthy (v : JValue) : bool :=
  match v with
  | JNull => false
  | JBool b => b
  | JNum r => negb (String.eqb r "0")
  | JStr s => negb (String.eqb s "")
  | JArr _ | JObj _ => true
  end.

(** ** ObjectId (bson): 12 bytes, written as 24 lowercase hex digits *)

Definition is_hex_digit (c : ascii) : bool :=
  let n := nat_of_ascii c in
  (((48 <=? n) && (n <=? 57)) || ((65 <=? n) && (n <=? 70)) || ((97 <=? n) && (n <=? 102)))%nat.

Definition lower_hex (c : ascii) : ascii :=
  let n := nat_of_ascii c in
  if ((65 <=? n) && (n <=? 70))%nat then ascii_of_nat (n + 32)%nat else c.

Fixpoint string_forallb (p : ascii -> bool) (s : string) : bool :=
  match s with
  | EmptyString => true
  | String c r => p c && string_forallb p r
  end.

Fixpoint string_map (f : ascii -> ascii) (s : string) : string :=
  match s with
  | EmptyString => EmptyString
  | String c r => String (f c) (string_map f r)
  end.

(** [new ObjectId(str)] in bson 6: a 24-character hex string, or a BSONError. *)
Definition objectid_of_string (s : string) : option string :=
  if (String.length s =? 24)%nat && string_forallb is_hex_digit s
  then Some (string_map lower_hex s) else None.

Definition hex_char (d : Z) : ascii :=
  if (d <? 10)%Z then ascii_of_nat (48 + Z.to_nat d)%nat else ascii_of_nat (87 + Z.to_nat d)%nat.

Fixpoint hex_digits (k : nat) (n : Z) (acc : string) : string :=
  match k with
  | O => acc
  | S k' => hex_digits k' (n / 16)%Z (String (hex_char (n mod 16)%Z) acc)
  end.

(** The generated ObjectId: bson builds it from a timestamp, a per-process
    random value and an incrementing counter; the model draws it from the
    process's counter [n], rendered as 24 hex digits. *)
Definition oid_hex (n : Z) : string := hex_digits 24 n "".
Arguments oid_hex : simpl never.

(** ** Mongoose casts (SchemaString, SchemaObjectId, SchemaNumber)

    Each returns [None] for a CastError, which Mongoose records on the
    document and reports when [save()] validates it. *)

(** lib/cast/string.js: null stays null; a value with a non-empty string
    [_id] is replaced by it; a value with its own [toString] (not
    Object.prototype.toString) and not an array is converted; else CastError. *)
Definition cast_string (v : JValue) : option (option string) :=
  match v with
  | JNull => Some None
  | JBool _ | JNum _ | JStr _ => Some (Some (js_to_string v))
  | JObj kvs =>
      match assoc "_id" kvs with
      | Some (JStr s) => if String.eqb s "" then None else Some (Some s)
      | _ => None
      end
  | JArr _ => None
  end.

(** lib/cast/objectid.js: null stays null; a truthy [_id] property is
    converted through its [toString()]; otherwise the value's own
    [toString()] is handed to [new ObjectId(...)]. *)
Definition cast_objectid (v : JValue) : option (option string) :=
  match v with
  | JNull => Some None
  | _ =>
      let s := match v with
               | JObj kvs =>
                   match assoc "_id" kvs with
                   | Some i => if truthy i then js_to_string i else js_to_string v
                   | None => js_to_string v
                   end
               | _ => js_to_string v
               end in
      option_map Some (objectid_of_string s)
  end.

Section Service.

(** Whether JavaScript's [Number(s)] of a string is a number (not NaN);
    SchemaNumber casts a non-empty string with it. *)
Variable number_of_string_ok : string -> bool.

(** lib/cast/number.js: null, booleans, numbers and the empty string cast;
    a string casts when [Number(s)] is not NaN; objects and arrays do not.
    Only success matters: the cast value of [__v] is overwritten on insert. *)
Definition cast_number (v : JValue) : option unit :=
  match v with
  | JNull | JBool _ | JNum _ => Some tt
  | JStr s => if String.eqb s "" then Some tt
              else if number_of_string_ok s then Some tt else None
  | JArr _ | JObj _ => None
  end.

(** Setting one schema path from the body: absent key -> path unset
    ([Some None]); present -> the cast value, or [None] on CastError. *)
Definition set_path {A : Type} (cast : JValue -> option A) (v : option JValue)
  : option (option A) :=
  match v with
  | None => Some None
  | Some x => option_map Some (cast x)
  end.


(** The document [new Task(req.body)] builds. *)
Record Draft : Type := {
  dr_id : option (option string);          (** None: [_id] left unset; Some None: null *)
  dr_title : option (option string);       (** None: no field; Some None: null *)
  dr_description : option (option string)
}.

(** [new Task(body)] under the strict schema { title: String,
    description: String } with Mongoose's implicit paths [_id] (ObjectId)
    and [__v] (Number). Every other key of the body is dropped, [id]
    included: in Mongoose 8 the [id] virtual has a getter only. A path
    whose cast fails stays unset and its CastError is recorded; the boolean
    is [false] when some path failed, so that validation in [save()] fails. *)
Definition new_Task (body : list (string * JValue)) : Draft * bool :=
  let t := set_path cast_string (assoc "title" body) in
  let d := set_path cast_string (assoc "description" body) in
  let i := set_path cast_objectid (assoc "_id" body) in
  let v := set_path cast_number (assoc "__v" body) in
  ({| dr_id := match i with Some (Some x) => Some x | _ => None end;
      dr_title := match t with Some x => x | None => None end;
      dr_description := match d with Some x => x | None => None end |},
   match t, d, i, v with
   | Some _, Some _, Some _, Some _ => true
   | _, _, _, _ => false
   end).

(** A task document, as [res.json] serialises it and as [Task.find()]
    returns it. [_id] is [None] when it is null. *)
Record Task : Type := {
  _id : option string;
  title : option (option string);
  description : option (option string);
  __v : Z
}.

(** Names of the keys [res.json] writes for a task document. *)
Definition task_keys (t : Task) : list string :=
  ["_id"] ++ (match title t with Some _ => ["title"] | None => [] end)
          ++ (match description t with Some _ => ["description"] | None => [] end)
          ++ ["__v"].

(** Whether the server process still runs: it is [Connecting] until the
    promise of [mongoose.connect(...)] settles, and [Terminated] when that
    promise rejects, since nothing handles the rejection (Node 18 ends the
    process on an unhandled rejection). *)
Inductive Conn : Type := Connecting | Connected | Terminated.

(** ** HTTP requests and responses *)

(** The request method, as Node's HTTP parser delivers it. *)
Inductive Method : Type := GET | HEAD | POST | OPTIONS | OtherMethod (m : string).

(** The request path as Express 5's router resolves it against the routes. *)
Inductive Route : Type := RRoot | RTasks | ROther (path : string).

Inductive Body : Type :=
| NoBody                   (** no body: [req.body] stays undefined *)
| JsonBody (v : JValue)    (** a JSON body that parses to [v] *)
| MalformedJson.           (** a JSON content type whose body does not parse *)

Record Request : Type := { method : Method; route : Route; body : Body }.

Inductive Payload : Type :=
| PText (s : string)        (** res.send(string) *)
| PTasks (ts : list Task)   (** res.json(array of tasks) *)
| PTask (t : Task)          (** res.json(task) *)
| PEmpty                    (** no body *)
| PError.                   (** the default error handler's page *)

Record Response : Type := { status : Z; payload : Payload }.

(** ** The process state *)

Record State : Type := {
  docs : list Task;       (** the tasks collection, in natural order *)
  db_up : bool;           (** whether the MongoDB server is reachable *)
  oid_counter : Z;        (** the ObjectId generator's counter *)
  conn : Conn;
  held : list Request     (** requests whose storage call Mongoose buffers
                              while the initial connection is pending,
                              oldest first *)
}.

Definition set_docs (l : list Task) (st : State) : State :=
  {| docs := l; db_up := db_up st; oid_counter := oid_counter st; conn := conn st;
     held := held st |}.
Definition set_db_up (b : bool) (st : State) : State :=
  {| docs := docs st; db_up := b; oid_counter := oid_counter st; conn := conn st;
     held := held st |}.
Definition set_counter (n : Z) (st : State) : State :=
  {| docs := docs st; db_up := db_up st; oid_counter := n; conn := conn st;
     held := held st |}.
Definition set_conn (c : Conn) (st : State) : State :=
  {| docs := docs st; db_up := db_up st; oid_counter := oid_counter st; conn := c;
     held := held st |}.
Definition set_held (l : list Request) (st : State) : State :=
  {| docs := docs st; db_up := db_up st; oid_counter := oid_counter st; conn := conn st;
     held := l |}.

(** A fresh database and a process that has just called [mongoose.connect]. *)
Definition init_state (reachable : bool) : State :=
  {| docs := []; db_up := reachable; oid_counter := 0; conn := Connecting; held := [] |}.

(** ** The MongoDB collection *)

Definition id_eqb (a b : option string) : bool :=
  match a, b with
  | Some x, Some y => String.eqb x y
  | None, None => true
  | _, _ => false
  end.

(** [Task.find()] with no filter: every document, in the collection's
    natural order; it rejects when the server cannot be reached. *)
Definition find (st : State) : option (list Task) :=
  if db_up st then Some (docs st) else None.

(** The driver's [insertOne]. A document whose [_id] is null gets a fresh
    ObjectId from the same generator before it is sent (the document
    Mongoose holds keeps its null). The call fails when the server cannot be
    reached, or with E11000 when the unique index on [_id] already holds the
    value. Returns the state after the call and whether it succeeded. *)
Definition insert_one (t : Task) (st : State) : State * bool :=
  if negb (db_up st) then (st, false)
  else
    let '(u, st1) :=
      match _id t with
      | Some _ => (t, st)
      | None => ({| _id := Some (oid_hex (oid_counter st)); title := title t;
                    description := description t; __v := __v t |},
                  set_counter (oid_counter st + 1) st)
      end in
    if existsb (fun w => id_eqb (_id w) (_id u)) (docs st1) then (st1, false)
    else (set_docs (docs st1 ++ [u]) st1, true).

(** The document [save()] inserts: Mongoose sets the version key to 0. *)
Definition task_of (d : Draft) (id : option string) : Task :=
  {| _id := id; title := dr_title d; description := dr_description d; __v := 0 |}.

(** Express 5 passes a rejected handler promise to its default error
    handler; the errors here carry no HTTP status, so it answers 500. *)
Definition server_error : Response := {| status := 500; payload := PError |}.

(** express.json(): strict mode accepts an object or an array at top level.
    An array gives [new Task] only index keys, which are not schema paths.
    [None]: the parser fails with a 400 error. *)
Definition parse_body (b : Body) : option (list (string * JValue)) :=
  match b with
  | NoBody => Some []
  | JsonBody (JObj kvs) => Some kvs
  | JsonBody (JArr _) => Some []
  | JsonBody _ => None
  | MalformedJson => None
  end.

(** app.get('/tasks'): [const tasks = await Task.find(); res.json(tasks)]. *)
Definition get_tasks (st : State) : State * Response :=
  match find st with
  | Some ts => (st, {| status := 200; payload := PTasks ts |})
  | None => (st, server_error)
  end.

(** app.post('/tasks'): [const task = new Task(req.body); await task.save();
    res.json(task)]. The constructor applies the default of [_id] (a fresh
    ObjectId) when the body leaves [_id] unset or its cast fails, before
    [save()] validates the document. *)
Definition post_tasks (b : list (string * JValue)) (st : State) : State * Response :=
  let '(d, valid) := new_Task b in
  let '(id, st1) :=
    match dr_id d with
    | Some i => (i, st)
    | None => (Some (oid_hex (oid_counter st)), set_counter (oid_counter st + 1) st)
    end in
  if negb valid then (st1, server_error)
  else
    let t := task_of d id in
    match insert_one t st1 with
    | (st2, true) => (st2, {| status := 200; payload := PTask t |})
    | (st2, false) => (st2, server_error)
    end.

(** The Express app, which Node's HTTP server hands every request but
    CONNECT: cors() answers every OPTIONS request as a preflight (204);
    express.json() parses the body; then the three routes; anything else
    falls through to 404. *)
Definition handle (r : Request) (st : State) : State * Response :=
  match method r with
  | OPTIONS => (st, {| status := 204; payload := PEmpty |})
  | m =>
      match parse_body (body r) with
      | None => (st, {| status := 400; payload := PError |})
      | Some b =>
          match m, route r with
          | GET, RRoot | HEAD, RRoot =>
              (st, {| status := 200; payload := PText "Backend is running!" |})
          | GET, RTasks | HEAD, RTasks => get_tasks st
          | POST, RTasks => post_tasks b st
          | _, _ => (st, {| status := 404; payload := PError |})
          end
      end
  end.

(** ** The process over time *)

(** A CONNECT request goes to the server's 'connect' event, which has no
    listener: Node closes the socket without an answer. *)
Definition is_connect (m : Method) : bool :=
  match m with
  | OtherMethod s => String.eqb s "CONNECT"
  | _ => false
  end.

(** Whether handling the request calls the store: GET or HEAD /tasks call
    [Task.find()]; a POST /tasks whose document validates calls
    [insertOne] from [save()]. *)
Definition reaches_db (r : Request) : bool :=
  match method r, route r, parse_body (body r) with
  | GET, RTasks, Some _ | HEAD, RTasks, Some _ => true
  | POST, RTasks, Some b => snd (new_Task b)
  | _, _, _ => false
  end.

(** The buffered requests, handled in order once the connection opens. *)
Fixpoint run_held (rs : list Request) (st : State) : State * list Response :=
  match rs with
  | [] => (st, [])
  | r :: rest =>
      let '(st1, resp) := handle r st in
      let '(st2, resps) := run_held rest st1 in
      (st2, resp :: resps)
  end.

Inductive Event : Type :=
| ERequest (r : Request)      (** an HTTP request arrives *)
| EBufferTimeout              (** bufferTimeoutMS (10 s) runs out for the
                                  oldest buffered storage call *)
| EConnectSettled             (** the initial connection attempt settles *)
| EDbReachable (b : bool)     (** the MongoDB server becomes (un)reachable *)
| EExternalClear.             (** the collection is cleared outside the app *)

(** One event and the HTTP answers it produces. While the initial
    connection is pending, Mongoose buffers every storage call
    ([bufferCommands]): the request waits in [held] until its call times out
    (a server error), the connection opens (the calls run), or the attempt
    gives up (the process ends; the held requests are never answered).
    Once connected, [db_up] stands for the server's reachability during the
    whole time the driver tries a call. *)
Definition step (e : Event) (st : State) : State * list Response :=
  match e with
  | ERequest r =>
      match conn st with
      | Terminated => (st, [])
      | c =>
          if is_connect (method r) then (st, [])
          else if match c with Connecting => reaches_db r | _ => false end
          then (set_held (held st ++ [r]) st, [])
          else let '(st', resp) := handle r st in (st', [resp])
      end
  | EBufferTimeout =>
      match conn st, held st with
      | Connecting, _ :: rest => (set_held rest st, [server_error])
      | _, _ => (st, [])
      end
  | EConnectSettled =>
      match conn st with
      | Connecting =>
          if db_up st then run_held (held st) (set_held [] (set_conn Connected st))
          else (set_held [] (set_conn Terminated st), [])
      | _ => (st, [])
      end
  | EDbReachable b => (set_db_up b st, [])
  | EExternalClear => (set_docs [] st, [])
  end.

Fixpoint run (es : list Event) (st : State) : State * list (list Response) :=
  match es with
  | [] => (st, [])
  | e :: rest =>
      let '(st1, r) := step e st in
      let '(st2, rs) := run rest st1 in
      (st2, r :: rs)
  end.

End Service.

(** ** Requests used in the statements *)

Definition tasks_get : Request := {| method := GET; route := RTasks; body := NoBody |}.
Definition tasks_post (kvs : list (string * JValue)) : Request :=
  {| method := POST; route := RTasks; body := JsonBody (JObj kvs) |}.

Definition ok_task (t : Task) : Response := {| status := 200; payload := PTask t |}.

(** A running process on a reachable, empty database. *)
Definition up_state : State :=
  {| docs := []; db_up := true; oid_counter := 0; conn := Connected; held := [] |}.


(** The body keys [new Task] reads: the two schema paths and Mongoose's
    implicit [_id] and [__v]. *)
Definition mongoose_paths : list string := ["title"; "description"; "_id"; "__v"].

(** Every non-null [_id] in the collection is an ObjectId in its canonical
    24-lowercase-hex form. *)
Definition ids_normal (st : State) : Prop :=
  forall t i, In t (docs st) -> _id t = Some i -> objectid_of_string i = Some i.

(** [u] is the document the driver stores for the document [t] that
    Mongoose sends (and answers with): [t] itself, unless the [_id] of [t]
    is null, which the driver replaces by a generated ObjectId. *)
Definition stored_as (t u : Task) : Prop :=
  match _id t with
  | Some _ => u = t
  | None => (exists n, _id u = Some (oid_hex n))
            /\ title u = title t /\ description u = description t /\ __v u = __v t
  end.

(** ** Facts about the model *)

Open Scope list_scope.

Lemma hex_digits_length (k : nat) (n : Z) (acc : string) :
  String.length (hex_digits k n acc) = (k + String.length acc)%nat.
Proof.
  revert n acc; induction k as [|k IH]; intros n acc; simpl; [reflexivity|].
  rewrite IH; simpl; lia.
Qed.

Lemma oid_hex_nonempty (n : Z) : oid_hex n <> "".
Proof.
  intro H. apply (f_equal String.length) in H.
  unfold oid_hex in H; rewrite hex_digits_length in H; simpl in H; discriminate.
Qed.

Lemma id_eqb_true (a b : option string) : id_eqb a b = true <-> a = b.
Proof.
  destruct a as [x|], b as [y|]; simpl; split; intro H; try discriminate; try reflexivity.
  - apply String.eqb_eq in H; now subst.
  - inversion H; subst; apply String.eqb_refl.
Qed.

Lemma existsb_id_false (i : option string) (l : list Task) :
  existsb (fun u => id_eqb (_id u) i) l = false <-> ~ In i (map _id l).
Proof.
  induction l as [|u l IH]; simpl; [tauto|].
  rewrite orb_false_iff, IH. split.
  - intros [H1 H2] [H|H]; [|tauto].
    rewrite H, (proj2 (id_eqb_true i i) eq_refl) in H1; discriminate.
  - intro H; split; [|tauto].
    destruct (id_eqb (_id u) i) eqn:E; [|reflexivity].
    apply id_eqb_true in E; tauto.
Qed.

Lemma insert_one_frame (t : Task) (st : State) :
  conn (fst (insert_one t st)) = conn st /\ db_up (fst (insert_one t st)) = db_up st
  /\ held (fst (insert_one t st)) = held st.
Proof.
  unfold insert_one. destruct (db_up st) eqn:Hu; simpl; [|auto].
  destruct (_id t); simpl;
    match goal with |- context [existsb ?f ?l] => destruct (existsb f l) end; simpl; auto.
Qed.

Lemma insert_one_fail (t : Task) (st st' : State) :
  insert_one t st = (st', false) -> docs st' = docs st.
Proof.
  unfold insert_one. destruct (db_up st); simpl; [|intro H; inversion H; reflexivity].
  destruct (_id t); simpl;
    match goal with |- context [existsb ?f ?l] => destruct (existsb f l) end;
    intro H; inversion H; reflexivity.
Qed.

Lemma insert_one_ok (t : Task) (st st' : State) :
  insert_one t st = (st', true) ->
  db_up st = true /\ exists u, docs st' = docs st ++ [u]
    /\ ~ In (_id u) (map _id (docs st)) /\ stored_as t u.
Proof.
  unfold insert_one, stored_as. destruct (db_up st); simpl; [|discriminate].
  intro H. split; [reflexivity|].
  destruct (_id t) as [i|] eqn:Ei; simpl in H;
    match type of H with context [existsb ?f ?l] => destruct (existsb f l) eqn:Ee end;
    inversion H; subst; clear H; apply existsb_id_false in Ee.
  - exists t. auto.
  - eexists; split; [reflexivity|]. split; [exact Ee|].
    split; [eexists; reflexivity|]. auto.
Qed.

Lemma stored_as_fields (t u : Task) :
  stored_as t u ->
  title u = title t /\ description u = description t /\ __v u = __v t /\ _id u <> None
  /\ forall i, _id t = Some i -> _id u = Some i.
Proof.
  unfold stored_as. destruct (_id t) as [i|] eqn:Ei.
  - intros ->. rewrite Ei. repeat split; try discriminate; try (intros j Hj; exact Hj).
  - intros [[n Hn] [? [? ?]]]. rewrite Hn. repeat split; auto; try discriminate;
      try (intros j Hj; discriminate).
Qed.

Lemma nodup_snoc {A : Type} (l : list A) (x : A) :
  NoDup l -> ~ In x l -> NoDup (l ++ [x]).
Proof.
  induction l as [|y l IH]; simpl; intros Hnd Hin.
  - constructor; [intros []|constructor].
  - inversion Hnd; subst. constructor.
    + rewrite in_app_iff; simpl; intros [H|[H|[]]]; [tauto|]. subst; tauto.
    + apply IH; tauto.
Qed.

Lemma assoc_app_notin (k : string) (kvs extra : list (string * JValue)) :
  ~ In k (map fst extra) -> assoc k (kvs ++ extra) = assoc k kvs.
Proof.
  intro Hk. induction kvs as [|[k' v] kvs IH]; simpl.
  - induction extra as [|[k'' v'] extra IHe]; simpl in *; [reflexivity|].
    destruct (String.eqb_spec k k''); [subst; tauto|]. apply IHe; tauto.
  - destruct (String.eqb k k'); [reflexivity|exact IH].
Qed.

Section Props.

Variable nok : string -> bool.

Lemma post_tasks_cases (b : list (string * JValue)) (st : State) :
  let '(st', r) := post_tasks nok b st in
  (docs st' = docs st /\ r = server_error /\ conn st' = conn st /\ db_up st' = db_up st
   /\ held st' = held st)
  \/ (exists t u, r = ok_task t /\ docs st' = docs st ++ [u]
        /\ ~ In (_id u) (map _id (docs st)) /\ stored_as t u /\ db_up st = true
        /\ conn st' = conn st /\ db_up st' = db_up st /\ held st' = held st).
Proof.
  unfold post_tasks.
  destruct (new_Task nok b) as [d valid].
  destruct (match dr_id d with
            | Some i => (i, st)
            | None => (Some (oid_hex (oid_counter st)), set_counter (oid_counter st + 1) st)
            end) as [id st1] eqn:E1.
  assert (Hd : docs st1 = docs st /\ conn st1 = conn st /\ db_up st1 = db_up st
               /\ held st1 = held st).
  { destruct (dr_id d); inversion E1; subst; auto. }
  destruct Hd as [Hd1 [Hd2 [Hd3 Hd4]]].
  destruct valid; simpl; [|left; auto].
  pose proof (insert_one_frame (task_of d id) st1) as Hf.
  destruct (insert_one (task_of d id) st1) as [st2 ok] eqn:E2; simpl in Hf.
  destruct Hf as [Hf1 [Hf2 Hf3]].
  destruct ok.
  - right. apply insert_one_ok in E2 as [Hu [u [Hdu [Hn Hs]]]].
    rewrite Hd1 in Hdu, Hn. rewrite Hd3 in Hu.
    exists (task_of d id), u.
    split; [reflexivity|]. split; [exact Hdu|]. split; [exact Hn|]. split; [exact Hs|].
    split; [exact Hu|]. split; [congruence|]. split; congruence.
  - left. apply insert_one_fail in E2. split; [congruence|]. split; [reflexivity|].
    split; [congruence|]. split; congruence.
Qed.

Lemma post_tasks_ok (b : list (string * JValue)) (st st' : State) (t : Task) :
  post_tasks nok b st = (st', ok_task t) ->
  exists u, docs st' = docs st ++ [u] /\ ~ In (_id u) (map _id (docs st)) /\ stored_as t u
    /\ db_up st = true /\ db_up st' = true.
Proof.
  intro H. pose proof (post_tasks_cases b st) as Hc. rewrite H in Hc.
  destruct Hc as [[_ [Hr _]]|[t' [u [Hr [Hd [Hn [Hs [Hu [_ [Hu' _]]]]]]]]]]; [discriminate|].
  inversion Hr; subst. exists u. repeat split; auto. congruence.
Qed.

Lemma post_tasks_version (b : list (string * JValue)) (st st' : State) (t : Task) :
  post_tasks nok b st = (st', ok_task t) -> __v t = 0%Z.
Proof.
  unfold post_tasks.
  destruct (new_Task nok b) as [d valid].
  destruct (dr_id d); destruct valid; simpl; try discriminate;
    destruct (insert_one _ _) as [st2 []]; intro H; inversion H; reflexivity.
Qed.

(** A body that sets neither [_id] nor [__v] and whose title and
    description cast is stored under the next generated ObjectId. *)
Lemma post_tasks_generated (kvs : list (string * JValue)) (st : State) (t d : option (option string)) :
  assoc "_id" kvs = None -> assoc "__v" kvs = None ->
  set_path cast_string (assoc "title" kvs) = Some t ->
  set_path cast_string (assoc "description" kvs) = Some d ->
  db_up st = true -> ~ In (Some (oid_hex (oid_counter st))) (map _id (docs st)) ->
  let tk := {| _id := Some (oid_hex (oid_counter st)); title := t; description := d; __v := 0 |} in
  post_tasks nok kvs st
    = (set_docs (docs st ++ [tk]) (set_counter (oid_counter st + 1) st), ok_task tk).
Proof.
  intros Hi Hv Ht Hd Hu Hf tk.
  unfold post_tasks, new_Task. rewrite Hi, Hv, Ht, Hd. simpl.
  unfold insert_one; simpl. rewrite Hu; simpl.
  apply existsb_id_false in Hf. unfold task_of; simpl. rewrite Hf. reflexivity.
Qed.

Lemma new_Task_extra (kvs extra : list (string * JValue)) :
  Forall (fun kv => ~ In (fst kv) mongoose_paths) extra ->
  new_Task nok (kvs ++ extra) = new_Task nok kvs.
Proof.
  intro Hf.
  assert (Hk : forall k, In k mongoose_paths -> assoc k (kvs ++ extra) = assoc k kvs).
  { intros k Hin. apply assoc_app_notin. intro Hm.
    apply in_map_iff in Hm as [[k' v] [Hkk Hin']]; simpl in Hkk; subst k'.
    rewrite Forall_forall in Hf. exact (Hf _ Hin' Hin). }
  unfold new_Task.
  rewrite !Hk by (unfold mongoose_paths; simpl; tauto).
  reflexivity.
Qed.

Lemma handle_cases (r : Request) (st : State) :
  handle nok r st = (st, snd (handle nok r st))
  \/ exists b, handle nok r st = post_tasks nok b st.
Proof.
  unfold handle, get_tasks.
  destruct (method r); try (left; reflexivity);
    destruct (parse_body (body r)) as [b|]; try (left; reflexivity);
    destruct (route r); try (destruct (find st)); try (left; reflexivity);
    right; exists b; reflexivity.
Qed.


Lemma handle_appends (r : Request) (st : State) :
  exists added, docs (fst (handle nok r st)) = docs st ++ added.
Proof.
  destruct (handle_cases r st) as [->|[b ->]]; [exists []; now rewrite app_nil_r|].
  pose proof (post_tasks_cases b st) as H.
  destruct (post_tasks nok b st) as [st' r']; simpl.
  destruct H as [[-> _]|[t [u [_ [-> _]]]]].
  - exists []; now rewrite app_nil_r.
  - now exists [u].
Qed.

Lemma handle_nodup (r : Request) (st : State) :
  NoDup (map _id (docs st)) -> NoDup (map _id (docs (fst (handle nok r st)))).
Proof.
  intro H.
  destruct (handle_cases r st) as [->|[b ->]]; [exact H|].
  pose proof (post_tasks_cases b st) as Hc.
  destruct (post_tasks nok b st) as [st' r']; simpl.
  destruct Hc as [[-> _]|[t [u [_ [-> [Hnin _]]]]]]; [exact H|].
  rewrite map_app; simpl. now apply nodup_snoc.
Qed.

(** A property of states that every handled request keeps is kept by the
    buffered requests run when the connection opens. *)
Lemma run_held_preserves (P : State -> Prop) (rs : list Request) (st : State) :
  (forall r s, P s -> P (fst (handle nok r s))) -> P st -> P (fst (run_held nok rs st)).
Proof.
  intro Hh. revert st; induction rs as [|r rs IH]; intros st Hp; simpl; [exact Hp|].
  destruct (handle nok r st) as [st1 resp] eqn:E1.
  destruct (run_held nok rs st1) as [st2 resps] eqn:E2; simpl.
  replace st2 with (fst (run_held nok rs st1)) by (rewrite E2; reflexivity).
  apply IH. replace st1 with (fst (handle nok r st)) by (rewrite E1; reflexivity).
  now apply Hh.
Qed.

Lemma step_preserves (P : State -> Prop) (e : Event) (st : State) :
  (forall r s, P s -> P (fst (handle nok r s))) ->
  (forall l s, P s -> P (set_held l s)) ->
  (forall c s, conn s = Connecting -> P s -> P (set_conn c s)) ->
  (forall b s, P s -> P (set_db_up b s)) ->
  (e = EExternalClear -> P (set_docs [] st)) ->
  P st -> P (fst (step nok e st)).
Proof.
  intros Hh Hl Hc Hb Hx Hp. destruct e as [r| | |b|]; simpl.
  - destruct (conn st) eqn:Ec; simpl; try exact Hp;
      destruct (is_connect (method r)); simpl; try exact Hp;
      try (destruct (reaches_db nok r); [apply Hl; exact Hp|]);
      destruct (handle nok r st) as [st' resp] eqn:E; simpl;
      replace st' with (fst (handle nok r st)) by (rewrite E; reflexivity); now apply Hh.
  - destruct (conn st), (held st); simpl; try exact Hp; apply Hl; exact Hp.
  - destruct (conn st) eqn:Ec; simpl; try exact Hp.
    destruct (db_up st).
    + apply run_held_preserves; [exact Hh|]. apply Hl, Hc; assumption.
    + apply Hl, Hc; assumption.
  - now apply Hb.
  - now apply Hx.
Qed.

Lemma run_preserves (P : State -> Prop) (es : list Event) (st : State) :
  (forall e s, In e es -> P s -> P (fst (step nok e s))) -> P st -> P (fst (run nok es st)).
Proof.
  revert st; induction es as [|e es IH]; intros st He Hp; simpl; [exact Hp|].
  destruct (step nok e st) as [st1 r] eqn:E1.
  destruct (run nok es st1) as [st2 rs] eqn:E2; simpl.
  replace st2 with (fst (run nok es st1)) by (rewrite E2; reflexivity).
  apply IH; [intros e' s Hin; apply He; simpl; auto|].
  replace st1 with (fst (step nok e st)) by (rewrite E1; reflexivity).
  apply He; simpl; auto.
Qed.

Lemma run_nodup (es : list Event) (st : State) :
  NoDup (map _id (docs st)) -> NoDup (map _id (docs (fst (run nok es st)))).
Proof.
  apply (run_preserves (fun s => NoDup (map _id (docs s)))). intros e s _.
  apply (step_preserves (fun s => NoDup (map _id (docs s)))); try (intros; assumption).
  - apply handle_nodup.
  - intros _; constructor.
Qed.



(** A request that calls no store, or any request once connected, is
    handled at once. *)
Lemma step_direct (r : Request) (st : State) :
  conn st <> Terminated -> is_connect (method r) = false ->
  conn st = Connected \/ reaches_db nok r = false ->
  step nok (ERequest r) st = (fst (handle nok r st), [snd (handle nok r st)]).
Proof.
  intros Hc Hm Hr. unfold step. rewrite Hm.
  destruct (conn st); [| |congruence].
  - destruct Hr as [Hr|Hr]; [discriminate|]. rewrite Hr.
    destruct (handle nok r st); reflexivity.
  - destruct (handle nok r st); reflexivity.
Qed.

(** ** The claims *)

(** C1: on a reachable store holding no task, creating the body
    {"title":"A","description":"B"} and then listing the tasks yields exactly
    one entry, whose title is "A", whose description is "B", and whose
    generated [_id] is a non-empty string. *)
Theorem create_then_list_single (st : State) :
  docs st = [] -> db_up st = true ->
  exists t i,
    snd (handle nok tasks_get
           (fst (handle nok (tasks_post [("title", JStr "A"); ("description", JStr "B")]) st)))
      = {| status := 200; payload := PTasks [t] |}
    /\ title t = Some (Some "A") /\ description t = Some (Some "B")
    /\ _id t = Some i /\ i <> "".
Proof.
  intros Hd Hu.
  exists {| _id := Some (oid_hex (oid_counter st)); title := Some (Some "A");
            description := Some (Some "B"); __v := 0 |}, (oid_hex (oid_counter st)).
  change (handle nok (tasks_post [("title", JStr "A"); ("description", JStr "B")]) st)
    with (post_tasks nok [("title", JStr "A"); ("description", JStr "B")] st).
  rewrite (post_tasks_generated [("title", JStr "A"); ("description", JStr "B")] st (Some (Some "A")) (Some (Some "B"))
             eq_refl eq_refl eq_refl eq_refl Hu) by (rewrite Hd; simpl; tauto).
  unfold handle, tasks_get, get_tasks, find; simpl. rewrite Hu, Hd; simpl.
  split; [reflexivity|]. split; [reflexivity|]. split; [reflexivity|].
  split; [reflexivity|]. apply oid_hex_nonempty.
Qed.

(** C3 (amended): the identifiers of stored tasks stay pairwise distinct
    along every run of events (MongoDB's unique index on [_id]; the driver
    gives a null [_id] a fresh ObjectId). A successful create stores one
    document under an [_id] no stored task holds, and the response shows it
    unless the body set [_id] to null; so two successful creates in a row
    store distinct identifiers, and their responses show distinct ones when
    neither shows null. *)
Theorem task_ids_unique (es : list Event) (st : State) :
  NoDup (map _id (docs st)) ->
  NoDup (map _id (docs (fst (run nok es st))))
  /\ (forall b st' t, post_tasks nok b st = (st', ok_task t) ->
        exists u, docs st' = docs st ++ [u] /\ ~ In (_id u) (map _id (docs st))
          /\ _id u <> None /\ stored_as t u)
  /\ (forall b1 b2 st1 st2 t1 t2,
        post_tasks nok b1 st = (st1, ok_task t1) ->
        post_tasks nok b2 st1 = (st2, ok_task t2) ->
        exists u1 u2, docs st2 = docs st ++ [u1; u2] /\ _id u1 <> _id u2
          /\ stored_as t1 u1 /\ stored_as t2 u2
          /\ (_id t1 <> None -> _id t2 <> None -> _id t1 <> _id t2)).
Proof.
  intro Hnd. split; [now apply run_nodup|]. split.
  - intros b st' t H. apply post_tasks_ok in H as [u [Hd [Hn [Hs _]]]].
    exists u. repeat split; auto. exact (proj1 (proj2 (proj2 (proj2 (stored_as_fields t u Hs))))).
  - intros b1 b2 st1 st2 t1 t2 H1 H2.
    apply post_tasks_ok in H1 as [u1 [Hd1 [_ [Hs1 _]]]].
    apply post_tasks_ok in H2 as [u2 [Hd2 [Hn2 [Hs2 _]]]].
    assert (Hne : _id u1 <> _id u2).
    { intro E; apply Hn2. rewrite Hd1, map_app, in_app_iff; simpl; auto. }
    exists u1, u2. split; [rewrite Hd2, Hd1, <- app_assoc; reflexivity|].
    split; [exact Hne|]. split; [exact Hs1|]. split; [exact Hs2|].
    intros Ht1 Ht2 E. apply Hne.
    destruct (_id t1) as [i1|] eqn:E1; [|congruence].
    destruct (_id t2) as [i2|] eqn:E2; [|congruence].
    rewrite (proj2 (proj2 (proj2 (proj2 (stored_as_fields t1 u1 Hs1)))) i1 E1),
            (proj2 (proj2 (proj2 (proj2 (stored_as_fields t2 u2 Hs2)))) i2 E2).
    exact E.
Qed.

(** C4: GET /tasks answers every stored task, in the collection's order, with
    no filtering or paging (or a server error when the store is unreachable);
    on a fresh database it answers the empty list. *)
Theorem list_tasks_returns_all (st : State) :
  handle nok tasks_get st
    = (st, if db_up st then {| status := 200; payload := PTasks (docs st) |}
           else server_error)
  /\ snd (handle nok tasks_get (init_state true)) = {| status := 200; payload := PTasks [] |}.
Proof.
  split; [|reflexivity].
  unfold handle, tasks_get, get_tasks, find; simpl.
  destruct (db_up st); reflexivity.
Qed.

(** C5 (amended): a POST /tasks that succeeds inserts exactly one document.
    The response is that document, with its [_id], unless the body set
    [_id] to null: then the response shows null while the stored document
    carries an ObjectId the driver generated. *)
Theorem create_inserts_one (b : Body) (st st' : State) (t : Task) :
  handle nok {| method := POST; route := RTasks; body := b |} st = (st', ok_task t) ->
  exists u, docs st' = docs st ++ [u] /\ stored_as t u.
Proof.
  unfold handle; simpl.
  destruct (parse_body b) as [kvs|]; [|discriminate].
  intro H. apply post_tasks_ok in H as [u [Hd [_ [Hs _]]]]. eauto.
Qed.

(** C6: no request updates or removes a stored task: along any run of events
    without an external clear, the stored tasks are a prefix of the later
    ones, so each keeps its [_id] and its fields. *)
Theorem tasks_never_modified (es : list Event) (st : State) :
  ~ In EExternalClear es ->
  exists added, docs (fst (run nok es st)) = docs st ++ added.
Proof.
  intro Hn.
  apply (run_preserves (fun s => exists added, docs s = docs st ++ added)).
  - intros e s Hin Hs.
    apply (step_preserves (fun s => exists added, docs s = docs st ++ added)); [| | | | |exact Hs].
    + intros r s' [a Ha]. destruct (handle_appends r s') as [a' Ha'].
      exists (a ++ a'). now rewrite Ha', Ha, app_assoc.
    + intros l s' Ha; exact Ha.
    + intros c s' _ Ha; exact Ha.
    + intros b s' Ha; exact Ha.
    + intros ->. contradiction.
  - exists []; now rewrite app_nil_r.
Qed.

(** C8: GET /tasks leaves the state unchanged, whatever the state and body. *)
Theorem list_tasks_read_only (b : Body) (st : State) :
  fst (handle nok {| method := GET; route := RTasks; body := b |} st) = st.
Proof.
  unfold handle, get_tasks; simpl.
  destruct (parse_body b); [|reflexivity].
  destruct (find st); reflexivity.
Qed.




(** C10 (amended): body keys that are no Mongoose path ([id] included) are
    dropped, so a returned task and the stored document have no keys but
    [_id], title, description and the version key [__v], which is 0; a
    body with none of the paths is stored, on a reachable store whose next
    generated ObjectId is unused, as a document with exactly the keys [_id]
    and [__v]. *)
Theorem create_stores_schema_keys (kvs extra : list (string * JValue)) (st : State) :
  Forall (fun kv => ~ In (fst kv) mongoose_paths) extra ->
  post_tasks nok (kvs ++ extra) st = post_tasks nok kvs st
  /\ (forall st' t, post_tasks nok (kvs ++ extra) st = (st', ok_task t) ->
        exists u, docs st' = docs st ++ [u]
          /\ incl (task_keys t) ["_id"; "title"; "description"; "__v"]
          /\ incl (task_keys u) ["_id"; "title"; "description"; "__v"]
          /\ __v t = 0%Z /\ __v u = 0%Z)
  /\ (db_up st = true -> ~ In (Some (oid_hex (oid_counter st))) (map _id (docs st)) ->
      exists st' t, post_tasks nok extra st = (st', ok_task t)
        /\ docs st' = docs st ++ [t] /\ task_keys t = ["_id"; "__v"]).
Proof.
  intros Hx.
  assert (Hp : forall l, post_tasks nok (l ++ extra) st = post_tasks nok l st).
  { intro l. unfold post_tasks. now rewrite new_Task_extra. }
  assert (Hk : forall w : Task, incl (task_keys w) ["_id"; "title"; "description"; "__v"]).
  { intros w k Hw. unfold task_keys in Hw.
    destruct (title w), (description w); simpl in *; tauto. }
  split; [apply Hp|]. split.
  - intros st' t H. pose proof (post_tasks_version _ _ _ _ H) as Hv.
    apply post_tasks_ok in H as [u [Hd [_ [Hs _]]]].
    exists u. split; [exact Hd|]. split; [apply Hk|]. split; [apply Hk|].
    split; [exact Hv|]. rewrite (proj1 (proj2 (proj2 (stored_as_fields t u Hs)))). exact Hv.
  - intros Hu Hf. rewrite <- (app_nil_l extra), Hp.
    rewrite (post_tasks_generated [] st None None eq_refl eq_refl eq_refl eq_refl Hu Hf).
    eexists; eexists; split; [reflexivity|]. split; reflexivity.
Qed.

End Props.
(** ** Further properties of the routes and of Mongoose's document building *)

Lemma hex_char_ok (d : Z) :
  (0 <= d < 16)%Z -> is_hex_digit (hex_char d) = true /\ lower_hex (hex_char d) = hex_char d.
Proof.
  intro H.
  assert (d = 0 \/ d = 1 \/ d = 2 \/ d = 3 \/ d = 4 \/ d = 5 \/ d = 6 \/ d = 7 \/ d = 8
          \/ d = 9 \/ d = 10 \/ d = 11 \/ d = 12 \/ d = 13 \/ d = 14 \/ d = 15)%Z as Hd by lia.
  repeat (destruct Hd as [->|Hd]; [split; reflexivity|]). subst; split; reflexivity.
Qed.

Lemma hex_digits_ok (k : nat) (n : Z) (acc : string) :
  string_forallb is_hex_digit acc = true -> string_map lower_hex acc = acc ->
  string_forallb is_hex_digit (hex_digits k n acc) = true
  /\ string_map lower_hex (hex_digits k n acc) = hex_digits k n acc.
Proof.
  revert n acc; induction k as [|k IH]; intros n acc H1 H2; simpl; [auto|].
  apply IH; simpl;
    destruct (hex_char_ok (n mod 16)%Z) as [Hh Hl]; try (apply Z.mod_pos_bound; lia).
  - now rewrite Hh, H1.
  - now rewrite Hl, H2.
Qed.

Lemma oid_hex_normal (n : Z) : objectid_of_string (oid_hex n) = Some (oid_hex n).
Proof.
  unfold objectid_of_string, oid_hex.
  destruct (hex_digits_ok 24 n "" eq_refl eq_refl) as [H1 H2].
  rewrite hex_digits_length, H1, H2. reflexivity.
Qed.

Lemma lower_hex_ok (c : ascii) :
  is_hex_digit c = true ->
  is_hex_digit (lower_hex c) = true /\ lower_hex (lower_hex c) = lower_hex c.
Proof.
  unfold is_hex_digit, lower_hex. intro H.
  destruct ((65 <=? nat_of_ascii c) && (nat_of_ascii c <=? 70))%nat eqn:E.
  - apply andb_true_iff in E as [E1 E2].
    apply Nat.leb_le in E1; apply Nat.leb_le in E2.
    rewrite nat_ascii_embedding by lia.
    assert (Hf : ((65 <=? nat_of_ascii c + 32) && (nat_of_ascii c + 32 <=? 70))%nat = false).
    { apply andb_false_iff; right; apply Nat.leb_gt; lia. }
    rewrite Hf. split; [|reflexivity].
    apply orb_true_iff; right; apply andb_true_iff; split; apply Nat.leb_le; lia.
  - rewrite E. split; [exact H|reflexivity].
Qed.

Lemma string_map_lower_ok (s : string) :
  string_forallb is_hex_digit s = true ->
  string_forallb is_hex_digit (string_map lower_hex s) = true
  /\ string_map lower_hex (string_map lower_hex s) = string_map lower_hex s
  /\ String.length (string_map lower_hex s) = String.length s.
Proof.
  induction s as [|c s IH]; simpl; [auto|].
  intro H; apply andb_true_iff in H as [Hc Hs].
  destruct (lower_hex_ok c Hc) as [H1 H2]. destruct (IH Hs) as [H3 [H4 H5]].
  rewrite H1, H3, H2, H4, H5. auto.
Qed.

Lemma objectid_normal (s o : string) :
  objectid_of_string s = Some o -> objectid_of_string o = Some o.
Proof.
  unfold objectid_of_string.
  destruct ((String.length s =? 24)%nat && string_forallb is_hex_digit s) eqn:E; [|discriminate].
  intro H; inversion H; subst o.
  apply andb_true_iff in E as [E1 E2].
  destruct (string_map_lower_ok s E2) as [H1 [H2 H3]].
  rewrite H3, E1, H1, H2. reflexivity.
Qed.

Lemma cast_objectid_normal (v : JValue) (o : string) :
  cast_objectid v = Some (Some o) -> objectid_of_string o = Some o.
Proof.
  unfold cast_objectid. destruct v; try discriminate;
    match goal with
    | |- option_map Some (objectid_of_string ?s) = _ -> _ =>
        destruct (objectid_of_string s) as [o'|] eqn:E; simpl; intro H; inversion H; subst;
        exact (objectid_normal _ _ E)
    end.
Qed.


Section Extras.

Variable nok : string -> bool.

Lemma new_Task_id_normal (kvs : list (string * JValue)) (o : string) :
  dr_id (fst (new_Task nok kvs)) = Some (Some o) -> objectid_of_string o = Some o.
Proof.
  unfold new_Task; simpl. unfold set_path.
  destruct (assoc "_id" kvs) as [v|]; [|discriminate].
  destruct (cast_objectid v) as [[o'|]|] eqn:Ec; simpl; intro H; inversion H; subst.
  now apply (cast_objectid_normal v).
Qed.

Lemma post_tasks_normal (b : list (string * JValue)) (st : State) :
  ids_normal st -> ids_normal (fst (post_tasks nok b st)).
Proof.
  intro Hn.
  assert (Hid0 : forall o, dr_id (fst (new_Task nok b)) = Some (Some o) ->
                           objectid_of_string o = Some o) by apply new_Task_id_normal.
  unfold post_tasks.
  destruct (new_Task nok b) as [d valid]; simpl in Hid0.
  destruct (match dr_id d with
            | Some i => (i, st)
            | None => (Some (oid_hex (oid_counter st)), set_counter (oid_counter st + 1) st)
            end) as [id st1] eqn:E1.
  assert (Hd : docs st1 = docs st
               /\ forall o, id = Some o -> objectid_of_string o = Some o).
  { destruct (dr_id d) as [i|] eqn:Ei; inversion E1; subst; split; auto.
    - intros o ->. exact (Hid0 o eq_refl).
    - intros o Ho; inversion Ho; subst. apply oid_hex_normal. }
  destruct Hd as [Hd Hid].
  destruct valid; simpl; [|intros t i Ht; rewrite Hd in Ht; exact (Hn t i Ht)].
  destruct (insert_one (task_of d id) st1) as [st2 ok] eqn:E2.
  destruct ok; simpl.
  - apply insert_one_ok in E2 as [_ [u [Hdu [_ Hs]]]].
    intros t i Ht Hi. rewrite Hdu, Hd in Ht.
    apply in_app_iff in Ht as [Ht|[<-|[]]]; [exact (Hn t i Ht Hi)|].
    unfold stored_as, task_of in Hs; simpl in Hs.
    destruct id as [o|].
    + subst u. simpl in Hi. exact (Hid i Hi).
    + destruct Hs as [[n Hn'] _]. rewrite Hn' in Hi. inversion Hi. apply oid_hex_normal.
  - apply insert_one_fail in E2.
    intros t i Ht. rewrite E2, Hd in Ht. exact (Hn t i Ht).
Qed.

Lemma handle_normal (r : Request) (st : State) :
  ids_normal st -> ids_normal (fst (handle nok r st)).
Proof.
  intro Hn. destruct (handle_cases nok r st) as [E|[b E]]; rewrite E; simpl; [exact Hn|].
  now apply post_tasks_normal.
Qed.

(** Requests the routes do not match are answered 404 at once and change
    nothing, while the process runs: PUT, PATCH and DELETE on any path,
    POST on /, and GET, HEAD or POST on other paths. *)
Theorem unrouted_requests_not_found (m : Method) (rt : Route) (b : Body) (st : State) :
  In m [GET; HEAD; POST; OtherMethod "PUT"; OtherMethod "PATCH"; OtherMethod "DELETE"] ->
  parse_body b <> None -> conn st <> Terminated ->
  match m, rt with
  | GET, RRoot | HEAD, RRoot | GET, RTasks | HEAD, RTasks | POST, RTasks => False
  | _, _ => True
  end ->
  step nok (ERequest {| method := m; route := rt; body := b |}) st
    = (st, [{| status := 404; payload := PError |}]).
Proof.
  intros Hm Hp Hc Hr.
  assert (Hh : handle nok {| method := m; route := rt; body := b |} st
               = (st, {| status := 404; payload := PError |})).
  { unfold handle; simpl.
    destruct (parse_body b); [|congruence].
    simpl in Hm; destruct Hm as [<-|[<-|[<-|[<-|[<-|[<-|[]]]]]]];
      destruct rt; simpl in Hr; try contradiction; reflexivity. }
  rewrite step_direct; [rewrite Hh; reflexivity|exact Hc| |].
  - simpl in Hm; destruct Hm as [<-|[<-|[<-|[<-|[<-|[<-|[]]]]]]]; reflexivity.
  - right. unfold reaches_db; simpl.
    simpl in Hm; destruct Hm as [<-|[<-|[<-|[<-|[<-|[<-|[]]]]]]];
      destruct rt; simpl in Hr; try contradiction; reflexivity.
Qed.


(** A create whose title or description is an array, or an object without
    an [_id] key, fails the String cast: the answer is a server error, and
    the stored tasks, the store's reachability and the process are
    unchanged. *)
Theorem create_uncastable_text_rejected (kvs : list (string * JValue)) (k : string) (v : JValue)
  (st : State) :
  (k = "title" \/ k = "description") -> assoc k kvs = Some v ->
  match v with JArr _ => True | JObj o => assoc "_id" o = None | _ => False end ->
  exists st', handle nok (tasks_post kvs) st = (st', server_error)
    /\ docs st' = docs st /\ db_up st' = db_up st /\ conn st' = conn st.
Proof.
  intros Hk Ha Hv.
  assert (Hc : set_path cast_string (assoc k kvs) = None).
  { rewrite Ha. destruct v; try contradiction; [reflexivity|]. simpl. rewrite Hv. reflexivity. }
  change (handle nok (tasks_post kvs) st) with (post_tasks nok kvs st).
  assert (Hvd : snd (new_Task nok kvs) = false).
  { unfold new_Task; simpl. destruct Hk as [->| ->]; rewrite Hc; [reflexivity|].
    destruct (set_path cast_string (assoc "title" kvs)); reflexivity. }
  unfold post_tasks. destruct (new_Task nok kvs) as [d valid]. simpl in Hvd; subst valid.
  destruct (dr_id d); simpl; eexists; split; [reflexivity| |reflexivity|]; auto.
Qed.

(** A scalar title is stored as JavaScript renders it: a string as is, a
    number as its decimal text, a boolean as "true" or "false", and null as
    null; a body without description stores none. *)
Theorem create_scalar_title_as_string (v : JValue) (st : State) :
  match v with JArr _ | JObj _ => False | _ => True end ->
  db_up st = true -> ~ In (Some (oid_hex (oid_counter st))) (map _id (docs st)) ->
  exists st' t, handle nok (tasks_post [("title", v)]) st = (st', ok_task t)
    /\ title t = Some (match v with JNull => None | _ => Some (js_to_string v) end)
    /\ description t = None.
Proof.
  intros Hv Hu Hf.
  assert (Hc : set_path cast_string (assoc "title" [("title", v)])
               = Some (Some (match v with JNull => None | _ => Some (js_to_string v) end))).
  { destruct v; try contradiction; reflexivity. }
  change (handle nok (tasks_post [("title", v)]) st) with (post_tasks nok [("title", v)] st).
  rewrite (post_tasks_generated nok [("title", v)] st _ None eq_refl eq_refl Hc eq_refl Hu Hf).
  eexists; eexists; split; [reflexivity|]. split; reflexivity.
Qed.


(** Every non-null [_id] in the collection stays a canonical ObjectId string
    along any run: generated ones and cast ones alike. *)
Theorem stored_ids_stay_normal (es : list Event) (st : State) :
  ids_normal st -> ids_normal (fst (run nok es st)).
Proof.
  apply (run_preserves nok ids_normal). intros e s _ Hs.
  apply (step_preserves nok ids_normal); [| | | | |exact Hs].
  - apply handle_normal.
  - intros l s' H; exact H.
  - intros c s' _ H; exact H.
  - intros b s' H; exact H.
  - intros _ t i [].
Qed.


(** A successful create followed by GET /tasks lists the earlier tasks
    followed by the stored document: the created task, or, when the body
    set [_id] to null, the same fields under the ObjectId the driver
    generated. *)
Theorem create_then_list_appends (kvs : list (string * JValue)) (st st' : State) (t : Task) :
  handle nok (tasks_post kvs) st = (st', ok_task t) ->
  exists u, handle nok tasks_get st' = (st', {| status := 200; payload := PTasks (docs st ++ [u]) |})
    /\ stored_as t u.
Proof.
  intro H.
  change (handle nok (tasks_post kvs) st) with (post_tasks nok kvs st) in H.
  apply post_tasks_ok in H as [u [Hd [_ [Hs [_ Hu]]]]].
  exists u. split; [|exact Hs].
  unfold handle, tasks_get, get_tasks, find; simpl. rewrite Hu, Hd. reflexivity.
Qed.

End Extras.

(** ** Witnesses: each theorem with hypotheses, applied at a concrete input *)

Lemma create_then_list_single_witness :
  docs up_state = [] /\ db_up up_state = true /\
  exists t i,
    snd (handle (fun _ => true) tasks_get
           (fst (handle (fun _ => true)
                   (tasks_post [("title", JStr "A"); ("description", JStr "B")]) up_state)))
      = {| status := 200; payload := PTasks [t] |}
    /\ title t = Some (Some "A") /\ description t = Some (Some "B")
    /\ _id t = Some i /\ i <> "".
Proof.
  split; [reflexivity|]. split; [reflexivity|].
  apply (create_then_list_single (fun _ => true) up_state); reflexivity.
Defined.

Lemma task_ids_unique_witness :
  NoDup (map _id (docs up_state)) /\
  (NoDup (map _id (docs (fst (run (fun _ => true)
                               [ERequest (tasks_post [("_id", JNull)]);
                                ERequest (tasks_post [("_id", JNull)])] up_state))))
   /\ (forall b st' t, post_tasks (fun _ => true) b up_state = (st', ok_task t) ->
         exists u, docs st' = docs up_state ++ [u] /\ ~ In (_id u) (map _id (docs up_state))
           /\ _id u <> None /\ stored_as t u)
   /\ (forall b1 b2 st1 st2 t1 t2,
         post_tasks (fun _ => true) b1 up_state = (st1, ok_task t1) ->
         post_tasks (fun _ => true) b2 st1 = (st2, ok_task t2) ->
         exists u1 u2, docs st2 = docs up_state ++ [u1; u2] /\ _id u1 <> _id u2
           /\ stored_as t1 u1 /\ stored_as t2 u2
           /\ (_id t1 <> None -> _id t2 <> None -> _id t1 <> _id t2))).
Proof.
  split; [constructor|].
  apply (task_ids_unique (fun _ => true)); constructor.
Defined.

Lemma create_inserts_one_witness :
  let t := {| _id := Some (oid_hex 0); title := None; description := None; __v := 0 |} in
  let st' := {| docs := [t]; db_up := true; oid_counter := 1; conn := Connected; held := [] |} in
  handle (fun _ => true) {| method := POST; route := RTasks; body := JsonBody (JObj []) |} up_state
    = (st', ok_task t)
  /\ exists u, docs st' = docs up_state ++ [u] /\ stored_as t u.
Proof.
  intros t st'.
  assert (H : handle (fun _ => true)
                {| method := POST; route := RTasks; body := JsonBody (JObj []) |} up_state
              = (st', ok_task t)) by reflexivity.
  split; [exact H|].
  exact (create_inserts_one (fun _ => true) (JsonBody (JObj [])) up_state st' t H).
Defined.

Lemma tasks_never_modified_witness :
  ~ In EExternalClear [ERequest (tasks_post []); ERequest tasks_get] /\
  exists added,
    docs (fst (run (fun _ => true) [ERequest (tasks_post []); ERequest tasks_get] up_state))
      = docs up_state ++ added.
Proof.
  assert (Hn : ~ In EExternalClear [ERequest (tasks_post []); ERequest tasks_get])
    by (simpl; intros [H|[H|[]]]; discriminate).
  split; [exact Hn|].
  exact (tasks_never_modified (fun _ => true) _ up_state Hn).
Defined.




Lemma create_stores_schema_keys_witness :
  Forall (fun kv => ~ In (fst kv) mongoose_paths) [("id", JStr "x"); ("priority", JNum "1")] /\
  (post_tasks (fun _ => true) ([("title", JStr "A")] ++ [("id", JStr "x"); ("priority", JNum "1")])
     up_state
     = post_tasks (fun _ => true) [("title", JStr "A")] up_state
   /\ (forall st' t,
         post_tasks (fun _ => true)
           ([("title", JStr "A")] ++ [("id", JStr "x"); ("priority", JNum "1")]) up_state
           = (st', ok_task t) ->
         exists u, docs st' = docs up_state ++ [u]
           /\ incl (task_keys t) ["_id"; "title"; "description"; "__v"]
           /\ incl (task_keys u) ["_id"; "title"; "description"; "__v"]
           /\ __v t = 0%Z /\ __v u = 0%Z)
   /\ (db_up up_state = true ->
       ~ In (Some (oid_hex (oid_counter up_state))) (map _id (docs up_state)) ->
       exists st' t, post_tasks (fun _ => true) [("id", JStr "x"); ("priority", JNum "1")] up_state
                       = (st', ok_task t)
         /\ docs st' = docs up_state ++ [t] /\ task_keys t = ["_id"; "__v"])).
Proof.
  assert (Hx : Forall (fun kv => ~ In (fst kv) mongoose_paths)
                 [("id", JStr "x"); ("priority", JNum "1")]).
  { repeat constructor; simpl; intuition discriminate. }
  split; [exact Hx|].
  exact (create_stores_schema_keys (fun _ => true) [("title", JStr "A")] _ up_state Hx).
Defined.

(** ** Counterexamples *)


(** C3: two successful creates whose body sets [_id] to null both answer a
    task whose [_id] is null; the two stored documents carry distinct
    generated ObjectIds. *)
Lemma null_id_creates_share_response_id :
  let t0 := {| _id := None; title := None; description := None; __v := 0 |} in
  snd (run (fun _ => true)
         [ERequest (tasks_post [("_id", JNull)]); ERequest (tasks_post [("_id", JNull)])] up_state)
    = [[ok_task t0]; [ok_task t0]]
  /\ map _id (docs (fst (run (fun _ => true)
                           [ERequest (tasks_post [("_id", JNull)]);
                            ERequest (tasks_post [("_id", JNull)])] up_state)))
     = [Some (oid_hex 0); Some (oid_hex 1)].
Proof. split; reflexivity. Qed.

(** C5: a create whose body sets [_id] to null answers a task with a null
    [_id], while the document stored carries a generated ObjectId. *)
Lemma null_id_response_differs :
  let t0 := {| _id := None; title := None; description := None; __v := 0 |} in
  let u0 := {| _id := Some (oid_hex 0); title := None; description := None; __v := 0 |} in
  handle (fun _ => true) (tasks_post [("_id", JNull)]) up_state
    = ({| docs := [u0]; db_up := true; oid_counter := 1; conn := Connected; held := [] |},
       ok_task t0)
  /\ t0 <> u0.
Proof. split; [reflexivity|discriminate]. Qed.



(** C10: an empty body is stored and returned with the key [__v] besides
    the generated [_id]. *)
Lemma empty_body_stores_version_key :
  exists t, snd (handle (fun _ => true) (tasks_post []) up_state) = ok_task t
            /\ task_keys t = ["_id"; "__v"] /\ In "__v" (task_keys t).
Proof.
  eexists. split; [reflexivity|]. split; [reflexivity|]. simpl; auto.
Qed.

(** ** Witnesses of the further properties *)

Lemma unrouted_requests_not_found_witness :
  In (OtherMethod "DELETE")
     [GET; HEAD; POST; OtherMethod "PUT"; OtherMethod "PATCH"; OtherMethod "DELETE"]
  /\ parse_body NoBody <> None /\ conn up_state <> Terminated /\
  step (fun _ => true)
    (ERequest {| method := OtherMethod "DELETE"; route := RTasks; body := NoBody |}) up_state
    = (up_state, [{| status := 404; payload := PError |}]).
Proof.
  assert (Hm : In (OtherMethod "DELETE")
                 [GET; HEAD; POST; OtherMethod "PUT"; OtherMethod "PATCH"; OtherMethod "DELETE"])
    by (simpl; tauto).
  split; [exact Hm|]. split; [discriminate|]. split; [discriminate|].
  apply unrouted_requests_not_found; [exact Hm|discriminate|discriminate|exact I].
Defined.


Lemma create_uncastable_text_rejected_witness :
  assoc "title" [("title", JArr [])] = Some (JArr []) /\
  exists st', handle (fun _ => true) (tasks_post [("title", JArr [])]) up_state = (st', server_error)
    /\ docs st' = docs up_state /\ db_up st' = db_up up_state /\ conn st' = conn up_state.
Proof.
  split; [reflexivity|].
  apply (create_uncastable_text_rejected (fun _ => true) _ "title" (JArr []));
    [left; reflexivity|reflexivity|exact I].
Defined.

Lemma create_scalar_title_as_string_witness :
  db_up up_state = true /\
  exists st' t, handle (fun _ => true) (tasks_post [("title", JNum "42")]) up_state = (st', ok_task t)
    /\ title t = Some (Some "42") /\ description t = None.
Proof.
  split; [reflexivity|].
  apply (create_scalar_title_as_string (fun _ => true) (JNum "42") up_state);
    [exact I|reflexivity|simpl; tauto].
Defined.


Lemma stored_ids_stay_normal_witness :
  ids_normal up_state /\
  ids_normal (fst (run (fun _ => true)
                    [ERequest (tasks_post []);
                     ERequest (tasks_post [("_id", JStr "0123456789ABCDEF01234567")])] up_state)).
Proof.
  assert (H : ids_normal up_state) by (intros t i []).
  split; [exact H|]. exact (stored_ids_stay_normal (fun _ => true) _ up_state H).
Defined.


Lemma create_then_list_appends_witness :
  let t := {| _id := None; title := None; description := None; __v := 0 |} in
  let u := {| _id := Some (oid_hex 0); title := None; description := None; __v := 0 |} in
  let st' := {| docs := [u]; db_up := true; oid_counter := 1; conn := Connected; held := [] |} in
  handle (fun _ => true) (tasks_post [("_id", JNull)]) up_state = (st', ok_task t) /\
  exists u', handle (fun _ => true) tasks_get st'
               = (st', {| status := 200; payload := PTasks (docs up_state ++ [u']) |})
    /\ stored_as t u'.
Proof.
  intros t u st'.
  assert (H : handle (fun _ => true) (tasks_post [("_id", JNull)]) up_state = (st', ok_task t))
    by reflexivity.
  split; [exact H|].
  exact (create_then_list_appends (fun _ => true) [("_id", JNull)] up_state st' t H).
Defined.
